(** * GrowUp shell: PWA install service, install banner and push notifications

    A shallow embedding of
    - [projects/shell/src/app/core/services/pwa-install.service.ts],
    - the [InstallBannerComponent] (shared/components/install-banner.component),
    - [projects/shell/src/app/core/services/pwa-notification.service.ts].

    The services are TypeScript classes with [async] methods.  A method body is
    written here as a finite tree of operations (field reads and writes,
    console output, platform calls, [await]) and run by an interpreter that
    threads the object's fields, so that a method reads like its source and
    [await] is a real suspension point at which other events may run. *)

From Stdlib Require Import String List Bool.
From stdpp Require Import base option list strings gmap.
Import ListNotations.
Open Scope string_scope.

(** ** Method bodies as operation trees *)

Section Program.
Context {Op : Type} {Ans : Op -> Type} {Err : Type}.

(** [Vis o k] performs the operation [o] and continues with [k] applied to
    its answer; [Throw] is a JavaScript exception (or a rejected promise
    being awaited). *)
Inductive Prog (A : Type) : Type :=
| Ret (a : A)
| Throw (e : Err)
| Vis (o : Op) (k : Ans o -> Prog A).

Global Arguments Ret {A} a.
Global Arguments Throw {A} e.
Global Arguments Vis {A} o k.

Fixpoint bind {A B : Type} (p : Prog A) (f : A -> Prog B) : Prog B :=
  match p with
  | Ret a => f a
  | Throw e => Throw e
  | Vis o k => Vis o (fun x => bind (k x) f)
  end.

(** [try { p } catch (error) { h error }] *)
Fixpoint try_catch {A : Type} (p : Prog A) (h : Err -> Prog A) : Prog A :=
  match p with
  | Ret a => Ret a
  | Throw e => h e
  | Vis o k => Vis o (fun x => try_catch (k x) h)
  end.

Definition perform (o : Op) : Prog (Ans o) := Vis o Ret.
End Program.

Arguments Prog : clear implicits.

(** Sequencing is written with stdpp's monad notation: [x ← p; q] and
    [p;; q]. *)
#[global] Instance prog_ret {Op Ans Err} : MRet (Prog Op Ans Err) :=
  fun A a => Ret a.
#[global] Instance prog_bind {Op Ans Err} : MBind (Prog Op Ans Err) :=
  fun A B f p => bind p f.

(** Errors that the modelled code can meet. *)
Inductive JsError : Type :=
| TypeError (msg : string)          (* a method called on [null] *)
| Rejection (reason : string).      (* a platform promise rejected *)

(** A settled platform promise. *)
Inductive Settled (A : Type) : Type :=
| Fulfilled (a : A)
| Rejected (reason : string).
Arguments Fulfilled {A} a.
Arguments Rejected {A} reason.

(** ** pwa-install.service.ts *)

Module PwaInstallService.

(** The [beforeinstallprompt] event object kept in [deferredPrompt]; only
    its identity matters. *)
Definition PromptEvent : Type := nat.

(** The fields of the class: the two signals and [deferredPrompt]. *)
Record State : Type := mkState {
  _isInstalled : bool;
  _canInstall : bool;
  deferredPrompt : option PromptEvent
}.

(** Field initialisers: [signal(false)], [signal(false)], [null]. *)
Definition fresh : State := mkState false false None.

(** The read-only views [isInstalled] and [canInstall]. *)
Definition isInstalled (s : State) : bool := _isInstalled s.
Definition canInstall (s : State) : bool := _canInstall s.

(** What the host gives the constructor's check. *)
Record Platform : Type := mkPlatform {
  displayModeStandalone : bool;          (* matchMedia(...).matches *)
  navigatorStandalone : option bool      (* navigator.standalone, if any *)
}.

(** The operations of the method bodies.  Following the platform contract,
    [prompt()] on an event object returns normally and the [userChoice]
    promise is fulfilled with an object whose [outcome] is a string. *)
Inductive Op : Type :=
| GetDeferredPrompt
| SetDeferredPrompt (v : option PromptEvent)
| SetIsInstalled (b : bool)
| SetCanInstall (b : bool)
| MatchMedia (query : string)
| NavigatorStandalone
| ConsoleLog (msg : string)
| PreventDefault (e : PromptEvent)
| CallPrompt (e : PromptEvent)
| AwaitUserChoice (e : PromptEvent).

Definition Ans (o : Op) : Type :=
  match o with
  | GetDeferredPrompt => option PromptEvent
  | MatchMedia _ => bool
  | NavigatorStandalone => option bool
  | AwaitUserChoice _ => string
  | _ => unit
  end.

Definition M : Type -> Type := Prog Op Ans JsError.

(** What the outside world can observe of a run. *)
Inductive Effect : Type :=
| Logged (msg : string)
| DefaultPrevented (e : PromptEvent)
| Prompted (e : PromptEvent).

(** [this.deferredPrompt.prompt()]: a [TypeError] when the field is null. *)
Definition prompt_of (d : option PromptEvent) : M unit :=
  match d with
  | Some e => perform (CallPrompt e)
  | None => Throw (TypeError "Cannot read properties of null (reading 'prompt')")
  end.

(** [await this.deferredPrompt.userChoice], destructured to [outcome]. *)
Definition userChoice_of (d : option PromptEvent) : M string :=
  match d with
  | Some e => perform (AwaitUserChoice e)
  | None => Throw (TypeError "Cannot read properties of null (reading 'userChoice')")
  end.

(** JavaScript truthiness of the field: an event object is truthy, [null]
    is not. *)
Definition truthy (d : option PromptEvent) : bool :=
  match d with Some _ => true | None => false end.

Definition checkIfInstalled : M unit :=
  isStandalone ← perform (MatchMedia "(display-mode: standalone)");
  standalone ← perform NavigatorStandalone;
  let isIOS := match standalone with Some true => true | _ => false end in
  perform (SetIsInstalled (isStandalone || isIOS)).

(** The two listeners registered by [listenForInstallPrompt]. *)
Inductive WindowEvent : Type :=
| beforeinstallprompt (e : PromptEvent)
| appinstalled.

Definition listenForInstallPrompt (ev : WindowEvent) : M unit :=
  match ev with
  | beforeinstallprompt e =>
      perform (PreventDefault e);;
      perform (SetDeferredPrompt (Some e));;
      perform (SetCanInstall true);;
      perform (ConsoleLog "Prompt de instalación disponible")
  | appinstalled =>
      perform (ConsoleLog "PWA instalada exitosamente");;
      perform (SetIsInstalled true);;
      perform (SetCanInstall false);;
      perform (SetDeferredPrompt None)
  end.

(** The constructor runs the check; the listeners stay registered. *)
Definition constructor : M unit := checkIfInstalled.

Definition showInstallPrompt : M bool :=
  d ← perform GetDeferredPrompt;
  if negb (truthy d) then
    perform (ConsoleLog "No hay prompt de instalación disponible");;
    Ret false
  else
    d1 ← perform GetDeferredPrompt;
    prompt_of d1;;
    d2 ← perform GetDeferredPrompt;
    outcome ← userChoice_of d2;
    perform (ConsoleLog
      ("Usuario " ++ (if String.eqb outcome "accepted" then "aceptó" else "rechazó")
                  ++ " la instalación"));;
    perform (SetDeferredPrompt None);;
    perform (SetCanInstall false);;
    if String.eqb outcome "accepted" then
      perform (SetIsInstalled true);;
      Ret true
    else
      Ret false.

(** *** Running a method up to its next suspension point *)

Inductive Status (A : Type) : Type :=
| Returned (a : A)
| Raised (e : JsError)
| Suspended (e : PromptEvent) (k : string -> M A).
Arguments Returned {A} a.
Arguments Raised {A} e.
Arguments Suspended {A} e k.

Fixpoint exec {A : Type} (env : Platform) (p : M A) (s : State)
  : State * list Effect * Status A :=
  match p with
  | Ret a => (s, [], Returned a)
  | Throw e => (s, [], Raised e)
  | Vis o k =>
      match o return (Ans o -> M A) -> State * list Effect * Status A with
      | GetDeferredPrompt => fun k => exec env (k (deferredPrompt s)) s
      | SetDeferredPrompt v => fun k =>
          exec env (k tt) (mkState (_isInstalled s) (_canInstall s) v)
      | SetIsInstalled b => fun k =>
          exec env (k tt) (mkState b (_canInstall s) (deferredPrompt s))
      | SetCanInstall b => fun k =>
          exec env (k tt) (mkState (_isInstalled s) b (deferredPrompt s))
      | MatchMedia _ => fun k => exec env (k (displayModeStandalone env)) s
      | NavigatorStandalone => fun k => exec env (k (navigatorStandalone env)) s
      | ConsoleLog msg => fun k =>
          let '(s', tr, r) := exec env (k tt) s in (s', Logged msg :: tr, r)
      | PreventDefault e => fun k =>
          let '(s', tr, r) := exec env (k tt) s in (s', DefaultPrevented e :: tr, r)
      | CallPrompt e => fun k =>
          let '(s', tr, r) := exec env (k tt) s in (s', Prompted e :: tr, r)
      | AwaitUserChoice e => fun k => (s, [], Suspended e k)
      end k
  end.

(** *** The event loop around the service

    One turn of the loop delivers a window event to its listener, lets the
    application call [showInstallPrompt], or settles the [userChoice]
    promise of a prompt event, which resumes every call suspended on it.
    Each turn runs to its end before the next one starts. *)

Definition Pending : Type := PromptEvent * (string -> M bool).

Record World : Type := mkWorld {
  svc : State;
  pending : list Pending;       (* suspended showInstallPrompt calls *)
  console : list Effect;        (* observable effects, oldest first *)
  results : list bool;          (* values of the resolved calls *)
  errors : list JsError         (* uncaught exceptions *)
}.

Inductive Event : Type :=
| Window (ev : WindowEvent)
| CallShowInstallPrompt
| UserChoice (e : PromptEvent) (outcome : string).

(** A listener is not [async]: it runs to its end. *)
Definition deliver (env : Platform) (h : M unit) (w : World) : World :=
  let '(s, tr, st) := exec env h (svc w) in
  mkWorld s (pending w) (console w ++ tr) (results w)
    match st with
    | Raised e => errors w ++ [e]
    | _ => errors w
    end.

(** A call (or a resumed call) either resolves, rejects or waits. *)
Definition advance (env : Platform) (p : M bool) (w : World) : World :=
  let '(s, tr, st) := exec env p (svc w) in
  match st with
  | Returned b =>
      mkWorld s (pending w) (console w ++ tr) (results w ++ [b]) (errors w)
  | Raised e =>
      mkWorld s (pending w) (console w ++ tr) (results w) (errors w ++ [e])
  | Suspended e k =>
      mkWorld s (pending w ++ [(e, k)]) (console w ++ tr) (results w) (errors w)
  end.

Definition keep (c : Pending) (w : World) : World :=
  mkWorld (svc w) (pending w ++ [c]) (console w) (results w) (errors w).

Fixpoint resume (env : Platform) (e : PromptEvent) (outcome : string)
    (waiting : list Pending) (w : World) : World :=
  match waiting with
  | [] => w
  | (e', k) :: rest =>
      if Nat.eqb e e'
      then resume env e outcome rest (advance env (k outcome) w)
      else resume env e outcome rest (keep (e', k) w)
  end.

Definition step (env : Platform) (ev : Event) (w : World) : World :=
  match ev with
  | Window ev => deliver env (listenForInstallPrompt ev) w
  | CallShowInstallPrompt => advance env showInstallPrompt w
  | UserChoice e outcome =>
      resume env e outcome (pending w)
        (mkWorld (svc w) [] (console w) (results w) (errors w))
  end.

Fixpoint run (env : Platform) (evs : list Event) (w : World) : World :=
  match evs with
  | [] => w
  | ev :: evs' => run env evs' (step env ev w)
  end.

(** The worlds after each event of a run, in order. *)
Fixpoint trajectory (env : Platform) (evs : list Event) (w : World)
  : list World :=
  match evs with
  | [] => []
  | ev :: evs' => step env ev w :: trajectory env evs' (step env ev w)
  end.

(** Construction of the singleton: field initialisers, then the
    constructor body. *)
Definition boot (env : Platform) : World :=
  deliver env constructor (mkWorld fresh [] [] [] []).

(** Classification of event sequences used by the statements below. *)
Definition is_offer (ev : Event) : bool :=
  match ev with
  | Window (beforeinstallprompt _) => true
  | _ => false
  end.

Definition no_offer (evs : list Event) : bool :=
  forallb (fun ev => negb (is_offer ev)) evs.

Definition resolves (e : PromptEvent) (evs : list Event) : bool :=
  existsb (fun ev => match ev with
                     | UserChoice e' _ => Nat.eqb e e'
                     | _ => false
                     end) evs.

(** Every offer of the sequence arrives while [isInstalled] is false. *)
Fixpoint offers_while_not_installed (env : Platform) (evs : list Event)
    (w : World) : bool :=
  match evs with
  | [] => true
  | ev :: evs' =>
      (if is_offer ev then negb (isInstalled (svc w)) else true)
      && offers_while_not_installed env evs' (step env ev w)
  end.

(** [isInstalled] and [canInstall] are not both true. *)
Definition exclusive (w : World) : bool :=
  negb (isInstalled (svc w) && canInstall (svc w)).

(** *** Vocabulary of the statements about the event loop *)

(** The state, the console line and the value of a call resumed with
    [outcome] in state [s]. *)
Definition settled_with (outcome : string) (s : State)
  : State * list Effect * Status bool :=
  if String.eqb outcome "accepted"
  then (mkState true false None, [Logged "Usuario aceptó la instalación"],
        Returned true)
  else (mkState (_isInstalled s) false None,
        [Logged "Usuario rechazó la instalación"], Returned false).

(** A continuation that behaves as the rest of [showInstallPrompt] after
    its [await]. *)
Definition resumes_ok (k : string -> M bool) : Prop :=
  forall (env' : Platform) (outcome : string) (s : State),
    exec env' (k outcome) s = settled_with outcome s.

Definition pending_ok (w : World) : Prop :=
  Forall (fun c : Pending => resumes_ok (snd c)) (pending w).

(** The offer is gone: [canInstall] is false and no event is held. *)
Definition cleared (s : State) : Prop :=
  _canInstall s = false /\ deferredPrompt s = None.

(** Does a call wait on the [userChoice] of [e]? *)
Definition waits_on (e : PromptEvent) (cs : list Pending) : bool :=
  existsb (fun c : Pending => Nat.eqb e (fst c)) cs.

(** [canInstall] is true exactly when an event is held. *)
Definition offer_held (s : State) : Prop :=
  _canInstall s = truthy (deferredPrompt s).

(** A call of [showInstallPrompt] made in [w] is over by the end of [evs]:
    it returned at once, or the choice for the event it waits on arrived. *)
Definition call_settles (w : World) (evs : list Event) : bool :=
  match deferredPrompt (svc w) with
  | Some e => resolves e evs
  | None => true
  end.

(** A browser tab: not standalone, no [navigator.standalone]. *)
Definition browser_tab : Platform := mkPlatform false None.

(** The events on which [prompt()] was called, and the events whose default
    handling was prevented, among some effects. *)
Definition prompted_events (tr : list Effect) : list PromptEvent :=
  omap (fun ef => match ef with Prompted e => Some e | _ => None end) tr.

Definition captured_events (tr : list Effect) : list PromptEvent :=
  omap (fun ef => match ef with DefaultPrevented e => Some e | _ => None end) tr.

End PwaInstallService.

(** ** install-banner.component.ts *)

Module InstallBannerComponent.
Import PwaInstallService.

(** [localStorage]: string keys to string values; [getItem] of a missing
    key is [null]. *)
Definition getItem (key : string) (store : gmap string string)
  : option string := store !! key.

Definition setItem (key value : string) (store : gmap string string)
  : gmap string string := <[key := value]> store.

(** [localStorage.getItem(key) === value] *)
Definition item_is (key value : string) (store : gmap string string) : bool :=
  match getItem key store with
  | Some v => String.eqb v value
  | None => false
  end.

(** The function given to [computed]: it reads the two signals of the
    injected service and the store. *)
Definition showBanner (installService : State) (localStorage : gmap string string)
  : bool :=
  let dismissed := item_is "install-banner-dismissed" "true" localStorage in
  negb (isInstalled installService)
  && canInstall installService
  && negb dismissed.

(** [dismiss()]: one [setItem], then a console line. *)
Definition dismiss (localStorage : gmap string string)
  : gmap string string * list Effect :=
  (setItem "install-banner-dismissed" "true" localStorage,
   [Logged "Banner de instalación cerrado"]).

(** *** The banner next to the service and the store

    Other code of the page (or the user, through the browser) can write to
    the store too. *)
Inductive StorageOp : Type :=
| SetItem (key value : string)
| RemoveItem (key : string)
| Clear.

Definition apply_op (op : StorageOp) (store : gmap string string)
  : gmap string string :=
  match op with
  | SetItem key value => setItem key value store
  | RemoveItem key => delete key store
  | Clear => ∅
  end.

(** The operations after which the dismissal flag no longer reads "true". *)
Definition clears_flag (op : StorageOp) : bool :=
  match op with
  | SetItem key value =>
      String.eqb key "install-banner-dismissed" && negb (String.eqb value "true")
  | RemoveItem key => String.eqb key "install-banner-dismissed"
  | Clear => true
  end.

Record App : Type := mkApp {
  world : World;
  localStorage : gmap string string
}.

Inductive AppEvent : Type :=
| Service (ev : Event)
| ClickDismiss
| External (op : StorageOp).

Definition app_step (env : Platform) (ev : AppEvent) (a : App) : App :=
  match ev with
  | Service ev => mkApp (step env ev (world a)) (localStorage a)
  | ClickDismiss =>
      let '(store, tr) := dismiss (localStorage a) in
      let w := world a in
      mkApp (mkWorld (svc w) (pending w) (console w ++ tr) (results w) (errors w))
            store
  | External op => mkApp (world a) (apply_op op (localStorage a))
  end.


(** What one run of that function gives in a state of the page. *)
Definition shown (a : App) : bool :=
  showBanner (svc (world a)) (localStorage a).

(** *** The [computed] signal around the function

    The component's field is [computed(f)], which is memoised: the first
    read runs [f] and keeps its value together with the signals that this
    run read; a later read returns the kept value, unless one of those
    signals was set to another value in between, in which case [f] runs
    again.  [localStorage] is not a signal: writing to it marks nothing. *)
Record Memo : Type := mkMemo {
  memoValue : bool;          (* the value kept by the last run *)
  readCanInstall : bool      (* did the last run read [canInstall()]? *)
}.

(** One run of the function.  [isInstalled()] is always read;
    [canInstall()] is read only when [!isInstalled()] is true, since [&&]
    does not evaluate its right operand otherwise. *)
Definition recompute (a : App) : Memo :=
  mkMemo (shown a) (negb (isInstalled (svc (world a)))).

(** The page: services and store, and the memo of [showBanner] (absent
    before the first read and after a signal it depends on has changed). *)
Record Page : Type := mkPage {
  app : App;
  showBannerMemo : option Memo
}.

(** [showBanner()] *)
Definition read (p : Page) : bool * Page :=
  match showBannerMemo p with
  | Some m => (memoValue m, p)
  | None =>
      let m := recompute (app p) in
      (memoValue m, mkPage (app p) (Some m))
  end.

(** Did a turn of the loop change a signal that the last run read?  A turn
    sets each signal to one value only (a listener writes each signal once,
    and the calls resumed in one turn all write the same values), so a signal
    was changed by the turn exactly when its value differs after it. *)
Definition out_of_date (before after : State) (m : Memo) : bool :=
  negb (Bool.eqb (isInstalled before) (isInstalled after))
  || (readCanInstall m && negb (Bool.eqb (canInstall before) (canInstall after))).

(** What happens on the page: a turn of the loop, or the template reading
    [showBanner()]. *)
Inductive PageEvent : Type :=
| Turn (ev : AppEvent)
| ReadShowBanner.

Definition page_step (env : Platform) (ev : PageEvent) (p : Page) : Page :=
  match ev with
  | Turn ev =>
      let a' := app_step env ev (app p) in
      mkPage a'
        match showBannerMemo p with
        | Some m =>
            if out_of_date (svc (world (app p))) (svc (world a')) m
            then None else Some m
        | None => None
        end
  | ReadShowBanner => snd (read p)
  end.

Fixpoint page_run (env : Platform) (evs : list PageEvent) (p : Page) : Page :=
  match evs with
  | [] => p
  | ev :: evs' => page_run env evs' (page_step env ev p)
  end.

(** The values returned by the reads of a run, in order. *)
Fixpoint page_reads (env : Platform) (evs : list PageEvent) (p : Page)
  : list bool :=
  match evs with
  | [] => []
  | ev :: evs' =>
      match ev with
      | ReadShowBanner => [fst (read p)]
      | Turn _ => []
      end ++ page_reads env evs' (page_step env ev p)
  end.

Definition page_never_cleared (evs : list PageEvent) : bool :=
  forallb (fun ev => match ev with
                     | Turn (External op) => negb (clears_flag op)
                     | _ => true
                     end) evs.

(** The flag is set, and the memo, if any, holds false. *)
Definition hidden (p : Page) : Prop :=
  item_is "install-banner-dismissed" "true" (localStorage (app p)) = true
  /\ match showBannerMemo p with
     | Some m => memoValue m = false
     | None => True
     end.

(** [install()]: awaits the service's [showInstallPrompt()] and logs when it
    gave true. *)
Definition install : M unit :=
  installed ← showInstallPrompt;
  if installed : bool then
    perform (ConsoleLog "¡App instalada exitosamente!")
  else
    Ret tt.

End InstallBannerComponent.

(** ** pwa-notification.service.ts *)

Module PwaNotificationService.

(** The object returned by [swPush.requestSubscription]; only its identity
    matters. *)
Definition PushSubscription : Type := nat.

(** The class has one field, the injected [SwPush]; no method assigns to a
    field. *)
Record Service : Type := mkService {
  swPush : nat
}.

(** The browser and the push transport, as seen by one call. *)
Record Platform : Type := mkPlatform {
  isEnabled : bool;                                  (* swPush.isEnabled *)
  notificationInWindow : bool;                       (* 'Notification' in window *)
  notificationRequestPermission : Settled string;    (* Notification.requestPermission() *)
  requestSubscription : string -> Settled PushSubscription;
  swPushUnsubscribe : Settled unit
}.

Inductive Op : Type :=
| GetIsEnabled
| HasNotification
| AwaitRequestPermission
| AwaitRequestSubscription (serverPublicKey : string)
| AwaitUnsubscribe
| ConsoleWarn (msg : string)
| ConsoleLog (msg : string) (arg : option PushSubscription)
| ConsoleError (msg : string) (error : JsError).

Definition Ans (o : Op) : Type :=
  match o with
  | GetIsEnabled => bool
  | HasNotification => bool
  | AwaitRequestPermission => Settled string
  | AwaitRequestSubscription _ => Settled PushSubscription
  | AwaitUnsubscribe => Settled unit
  | _ => unit
  end.

Definition M : Type -> Type := Prog Op Ans JsError.

(** [await] of a platform promise: its value, or its rejection thrown. *)
Definition settle {A : Type} (r : Settled A) : M A :=
  match r with
  | Fulfilled a => Ret a
  | Rejected reason => Throw (Rejection reason)
  end.

Definition requestPermission : M bool :=
  supported ← perform HasNotification;
  if negb supported then
    perform (ConsoleWarn "Este navegador no soporta notificaciones");;
    Ret false
  else
    r ← perform AwaitRequestPermission;
    permission ← settle r;
    Ret (String.eqb permission "granted").

Definition subscribeToNotifications (vapidPublicKey : string) : M unit :=
  enabled ← perform GetIsEnabled;
  if negb enabled then
    perform (ConsoleWarn "Service Worker no está habilitado")
  else
    try_catch
      (hasPermission ← requestPermission;
       if negb hasPermission then
         perform (ConsoleLog "Usuario rechazó las notificaciones" None)
       else
         r ← perform (AwaitRequestSubscription vapidPublicKey);
         subscription ← settle r;
         perform (ConsoleLog "Suscripción exitosa:" (Some subscription)))
      (fun error =>
         perform (ConsoleError "Error al suscribirse a notificaciones:" error)).

Definition unsubscribe : M unit :=
  enabled ← perform GetIsEnabled;
  if negb enabled then
    Ret tt
  else
    try_catch
      (r ← perform AwaitUnsubscribe;
       settle r;;
       perform (ConsoleLog "Suscripción cancelada" None))
      (fun error =>
         perform (ConsoleError "Error al cancelar suscripción:" error)).

(** What a call does to the outside. *)
Inductive Effect : Type :=
| Warned (msg : string)
| Logged (msg : string) (arg : option PushSubscription)
| ErrorLogged (msg : string) (error : JsError)
| PermissionRequested
| SubscriptionRequested (serverPublicKey : string)
| UnsubscribeRequested.

(** A whole call: every [await] is answered by the platform.  The service
    record is threaded through and comes back as the call leaves it. *)
Fixpoint exec {A : Type} (env : Platform) (p : M A) (this : Service)
  : Service * list Effect * (JsError + A) :=
  match p with
  | Ret a => (this, [], inr a)
  | Throw e => (this, [], inl e)
  | Vis o k =>
      match o return (Ans o -> M A) -> Service * list Effect * (JsError + A) with
      | GetIsEnabled => fun k => exec env (k (isEnabled env)) this
      | HasNotification => fun k => exec env (k (notificationInWindow env)) this
      | AwaitRequestPermission => fun k =>
          let '(t, tr, r) := exec env (k (notificationRequestPermission env)) this in
          (t, PermissionRequested :: tr, r)
      | AwaitRequestSubscription key => fun k =>
          let '(t, tr, r) := exec env (k (requestSubscription env key)) this in
          (t, SubscriptionRequested key :: tr, r)
      | AwaitUnsubscribe => fun k =>
          let '(t, tr, r) := exec env (k (swPushUnsubscribe env)) this in
          (t, UnsubscribeRequested :: tr, r)
      | ConsoleWarn msg => fun k =>
          let '(t, tr, r) := exec env (k tt) this in (t, Warned msg :: tr, r)
      | ConsoleLog msg arg => fun k =>
          let '(t, tr, r) := exec env (k tt) this in (t, Logged msg arg :: tr, r)
      | ConsoleError msg e => fun k =>
          let '(t, tr, r) := exec env (k tt) this in (t, ErrorLogged msg e :: tr, r)
      end k
  end.

Definition service_after {A : Type} (x : Service * list Effect * (JsError + A))
  : Service := fst (fst x).
Definition effects_of {A : Type} (x : Service * list Effect * (JsError + A))
  : list Effect := snd (fst x).
Definition result_of {A : Type} (x : Service * list Effect * (JsError + A))
  : JsError + A := snd x.

(** The calls to the subscribe operation of the transport among the
    effects of a run. *)
Definition is_subscription_request (ef : Effect) : bool :=
  match ef with
  | SubscriptionRequested _ => true
  | _ => false
  end.

(** The subscription handles that a run got hold of. *)
Definition handle_of (ef : Effect) : option PushSubscription :=
  match ef with
  | Logged _ arg => arg
  | _ => None
  end.

(** A browser with notifications and push enabled, whose user grants the
    permission and whose transport answers every subscribe call with the
    handle [sub]. *)
Definition granting (sub : PushSubscription) : Platform :=
  mkPlatform true true (Fulfilled "granted") (fun _ => Fulfilled sub)
             (Fulfilled tt).

(** The same browser with a user who denies the permission. *)
Definition denying (sub : PushSubscription) : Platform :=
  mkPlatform true true (Fulfilled "denied") (fun _ => Fulfilled sub)
             (Fulfilled tt).

End PwaNotificationService.

(** ** pwa-notification.service.ts: [listenToNotifications] *)

Module PwaNotificationStreams.

(** A push message or a notification click, as the transport hands it over. *)
Definition Payload : Type := string.

(** [console.log(label, value)] *)
Inductive Effect : Type :=
| Logged (label : string) (value : Payload).

(** The function given to [subscribe]. *)
Definition Observer : Type := Payload -> list Effect.

(** The injected [SwPush] as this method uses it: the flag and the observers
    of its two streams, in subscription order. *)
Record SwPush : Type := mkSwPush {
  isEnabled : bool;
  messages : list Observer;
  notificationClicks : list Observer
}.

(** [stream.subscribe(next)] *)
Definition subscribe (next : Observer) (observers : list Observer)
  : list Observer := observers ++ [next].

Definition listenToNotifications (swPush : SwPush) : SwPush :=
  if negb (isEnabled swPush) then
    swPush
  else
    let swPush1 :=
      mkSwPush (isEnabled swPush)
        (subscribe (fun message => [Logged "Notificación recibida:" message])
                   (messages swPush))
        (notificationClicks swPush) in
    mkSwPush (isEnabled swPush1)
      (messages swPush1)
      (subscribe (fun click => [Logged "Click en notificación:" click])
                 (notificationClicks swPush1)).

(** The transport emits [value] on a stream: each observer runs once. *)
Definition emit (observers : list Observer) (value : Payload) : list Effect :=
  flat_map (fun next => next value) observers.

End PwaNotificationStreams.

(** * Properties of the install service *)

Section InstallService.
Import PwaInstallService.

Variable env : Platform.

(** ** What each operation does to the fields *)

Lemma exec_offer (e : PromptEvent) (s : State) :
  exec env (listenForInstallPrompt (beforeinstallprompt e)) s
  = (mkState (_isInstalled s) true (Some e),
     [DefaultPrevented e; Logged "Prompt de instalación disponible"],
     Returned tt).
Proof. reflexivity. Qed.

Lemma exec_installed (s : State) :
  exec env (listenForInstallPrompt appinstalled) s
  = (mkState true false None, [Logged "PWA instalada exitosamente"], Returned tt).
Proof. reflexivity. Qed.

Lemma exec_constructor (s : State) :
  exec env constructor s
  = (mkState (displayModeStandalone env
              || match navigatorStandalone env with Some true => true | _ => false end)
             (_canInstall s) (deferredPrompt s),
     [], Returned tt).
Proof. reflexivity. Qed.

Lemma exec_show_without_offer (s : State) :
  deferredPrompt s = None ->
  exec env showInstallPrompt s
  = (s, [Logged "No hay prompt de instalación disponible"], Returned false).
Proof. destruct s as [i c d]; simpl; intros ->; reflexivity. Qed.

Lemma exec_show_with_offer (s : State) (e : PromptEvent) :
  deferredPrompt s = Some e ->
  exists k, exec env showInstallPrompt s = (s, [Prompted e], Suspended e k)
            /\ resumes_ok k.
Proof.
  destruct s as [i c d]; simpl; intros ->.
  eexists; split; [reflexivity|].
  intros env' outcome s; unfold settled_with; simpl.
  destruct (String.eqb outcome "accepted"); reflexivity.
Qed.

(** ** Invariants of the event loop *)

Lemma advance_resumed (k : string -> M bool) (outcome : string) (w : World) :
  resumes_ok k ->
  advance env (k outcome) w
  = mkWorld (fst (fst (settled_with outcome (svc w)))) (pending w)
            (console w ++ snd (fst (settled_with outcome (svc w))))
            (results w ++ [String.eqb outcome "accepted"]) (errors w).
Proof.
  intros Hk; unfold advance; rewrite Hk; unfold settled_with.
  destruct (String.eqb outcome "accepted"); reflexivity.
Qed.

Lemma advance_show (w : World) :
  (deferredPrompt (svc w) = None
   /\ advance env showInstallPrompt w
      = mkWorld (svc w) (pending w)
          (console w ++ [Logged "No hay prompt de instalación disponible"])
          (results w ++ [false]) (errors w))
  \/ (exists e k, deferredPrompt (svc w) = Some e /\ resumes_ok k
      /\ advance env showInstallPrompt w
         = mkWorld (svc w) (pending w ++ [(e, k)]) (console w ++ [Prompted e])
             (results w) (errors w)).
Proof.
  destruct (deferredPrompt (svc w)) as [e|] eqn:Hd.
  - right. destruct (exec_show_with_offer (svc w) e Hd) as (k & Hk & Hok).
    exists e, k; repeat split; auto. unfold advance; rewrite Hk; reflexivity.
  - left; split; auto. unfold advance; rewrite exec_show_without_offer; auto.
Qed.

Lemma cleared_settled (outcome : string) (s : State) :
  cleared (fst (fst (settled_with outcome s))).
Proof.
  unfold settled_with; destruct (String.eqb outcome "accepted"); split; reflexivity.
Qed.

(** Resuming the calls that wait on [e] keeps the other calls waiting,
    raises nothing, and either runs no call or leaves the offer cleared. *)
Lemma resume_fields (e : PromptEvent) (outcome : string)
    (waiting : list Pending) (w : World) :
  Forall (fun c : Pending => resumes_ok (snd c)) waiting ->
  pending_ok w ->
  let w' := resume env e outcome waiting w in
  pending_ok w'
  /\ errors w' = errors w
  /\ (svc w' = svc w \/ cleared (svc w')).
Proof.
  revert w; induction waiting as [|[e' k] rest IH]; intros w Hall Hw; simpl.
  - auto.
  - inversion Hall as [|? ? Hk Hrest]; subst; simpl in Hk.
    destruct (Nat.eqb e e').
    + rewrite (advance_resumed k outcome w Hk).
      match goal with |- context [resume _ _ _ _ ?w1] => set (w1' := w1) end.
      destruct (IH w1' Hrest) as (Hp & He & Hs); [exact Hw|].
      split; [exact Hp|]. split; [exact He|]. right.
      destruct Hs as [-> | Hc]; [apply cleared_settled | exact Hc].
    + destruct (IH (keep (e', k) w) Hrest) as (Hp & He & Hs); [|auto].
      unfold pending_ok, keep; simpl. apply Forall_app; split; auto.
Qed.

Lemma resume_hit (e : PromptEvent) (outcome : string)
    (waiting : list Pending) (w : World) :
  Forall (fun c : Pending => resumes_ok (snd c)) waiting ->
  pending_ok w ->
  waits_on e waiting = true ->
  cleared (svc (resume env e outcome waiting w)).
Proof.
  revert w; induction waiting as [|[e' k] rest IH]; intros w Hall Hw Hin;
    simpl in *; [discriminate|].
  inversion Hall as [|? ? Hk Hrest]; subst; simpl in Hk.
  destruct (Nat.eqb e e'); simpl in Hin.
  - rewrite (advance_resumed k outcome w Hk).
    match goal with |- context [resume _ _ _ _ ?w1] => set (w1' := w1) end.
    destruct (resume_fields e outcome rest w1' Hrest Hw) as (_ & _ & [-> | Hc]).
    + apply cleared_settled.
    + exact Hc.
  - apply IH; auto.
    unfold pending_ok, keep; simpl. apply Forall_app; split; auto.
Qed.

(** The calls that wait on another event keep waiting. *)
Lemma resume_keeps (e e0 : PromptEvent) (outcome : string)
    (waiting : list Pending) (w : World) :
  Forall (fun c : Pending => resumes_ok (snd c)) waiting ->
  Nat.eqb e e0 = false ->
  waits_on e0 (pending w) || waits_on e0 waiting = true ->
  waits_on e0 (pending (resume env e outcome waiting w)) = true.
Proof.
  revert w; induction waiting as [|[e' k] rest IH]; intros w Hall Hne Hin;
    simpl in *.
  - rewrite orb_false_r in Hin; exact Hin.
  - inversion Hall as [|? ? Hk Hrest]; subst; simpl in Hk.
    destruct (Nat.eqb e e') eqn:Hee.
    + apply IH; auto. rewrite (advance_resumed k outcome w Hk); simpl.
      apply Nat.eqb_eq in Hee. rewrite <- Hee in Hin.
      rewrite (Nat.eqb_sym e0 e), Hne in Hin. exact Hin.
    + apply IH; auto. unfold keep, waits_on in *; simpl.
      rewrite existsb_app; simpl.
      destruct (existsb _ (pending w)); simpl in *; auto.
      rewrite orb_false_r. destruct (Nat.eqb e0 e'); simpl in *; auto.
Qed.

(** ** One turn of the loop *)

Lemma pending_ok_boot : pending_ok (boot env).
Proof. constructor. Qed.

Lemma step_pending_ok (ev : Event) (w : World) :
  pending_ok w -> pending_ok (step env ev w).
Proof.
  intros Hw; destruct ev as [[e|] | | e outcome]; simpl.
  - exact Hw.
  - exact Hw.
  - destruct (advance_show w) as [(_ & ->) | (e & k & _ & Hk & ->)]; [exact Hw|].
    unfold pending_ok; simpl. apply Forall_app; split; auto.
  - apply resume_fields; [exact Hw | constructor].
Qed.

Lemma run_pending_ok (evs : list Event) (w : World) :
  pending_ok w -> pending_ok (run env evs w).
Proof.
  revert w; induction evs as [|ev evs IH]; intros w Hw; simpl; auto.
  apply IH, step_pending_ok, Hw.
Qed.

(** The fields after a turn: unchanged, or as left by one of the three
    writers. *)
Lemma step_svc (ev : Event) (w : World) :
  pending_ok w ->
  match ev with
  | Window (beforeinstallprompt e) =>
      svc (step env ev w) = mkState (_isInstalled (svc w)) true (Some e)
  | Window appinstalled => svc (step env ev w) = mkState true false None
  | CallShowInstallPrompt => svc (step env ev w) = svc w
  | UserChoice e outcome =>
      svc (step env ev w) = svc w \/ cleared (svc (step env ev w))
  end.
Proof.
  intros Hw; destruct ev as [[e|] | | e outcome]; simpl.
  - reflexivity.
  - reflexivity.
  - destruct (advance_show w) as [(_ & ->) | (e & k & _ & _ & ->)]; reflexivity.
  - destruct (resume_fields e outcome (pending w)
                (mkWorld (svc w) [] (console w) (results w) (errors w)) Hw)
      as (_ & _ & H); [constructor | exact H].
Qed.

Lemma step_errors (ev : Event) (w : World) :
  pending_ok w -> errors (step env ev w) = errors w.
Proof.
  intros Hw; destruct ev as [[e|] | | e outcome]; simpl.
  - reflexivity.
  - reflexivity.
  - destruct (advance_show w) as [(_ & ->) | (e & k & _ & _ & ->)]; reflexivity.
  - destruct (resume_fields e outcome (pending w)
                (mkWorld (svc w) [] (console w) (results w) (errors w)) Hw)
      as (_ & H & _); [constructor | exact H].
Qed.

Lemma cleared_offer_held (s : State) : cleared s -> offer_held s.
Proof. intros [Hc Hd]; unfold offer_held; rewrite Hc, Hd; reflexivity. Qed.

Lemma step_offer_held (ev : Event) (w : World) :
  pending_ok w -> offer_held (svc w) -> offer_held (svc (step env ev w)).
Proof.
  intros Hw Hi. pose proof (step_svc ev w Hw) as H.
  destruct ev as [[e|] | | e outcome].
  - rewrite H; reflexivity.
  - rewrite H; reflexivity.
  - rewrite H; exact Hi.
  - destruct H as [-> | Hc]; [exact Hi | apply cleared_offer_held, Hc].
Qed.

Lemma run_offer_held (evs : list Event) (w : World) :
  pending_ok w -> offer_held (svc w) -> errors w = [] ->
  offer_held (svc (run env evs w)) /\ errors (run env evs w) = [].
Proof.
  revert w; induction evs as [|ev evs IH]; intros w Hw Hi He; simpl; auto.
  apply IH.
  - apply step_pending_ok, Hw.
  - apply step_offer_held; assumption.
  - rewrite step_errors; assumption.
Qed.

Lemma step_exclusive (ev : Event) (w : World) :
  pending_ok w ->
  exclusive w = true ->
  (is_offer ev = true -> isInstalled (svc w) = false) ->
  exclusive (step env ev w) = true.
Proof.
  intros Hw Hx Hg. pose proof (step_svc ev w Hw) as H.
  unfold exclusive, isInstalled, canInstall in *.
  destruct ev as [[e|] | | e outcome].
  - rewrite H; simpl. rewrite (Hg eq_refl); reflexivity.
  - rewrite H; reflexivity.
  - rewrite H; exact Hx.
  - destruct H as [-> | [Hc _]]; [exact Hx|].
    rewrite Hc, andb_false_r; reflexivity.
Qed.

Lemma trajectory_exclusive (evs : list Event) (w : World) :
  pending_ok w ->
  exclusive w = true ->
  offers_while_not_installed env evs w = true ->
  Forall (fun w' => exclusive w' = true) (trajectory env evs w).
Proof.
  revert w; induction evs as [|ev evs IH]; intros w Hw Hx Hg; simpl.
  - constructor.
  - simpl in Hg. apply andb_true_iff in Hg as [Hev Hrest].
    assert (exclusive (step env ev w) = true) as Hx'.
    { apply step_exclusive; auto. intros Ho; rewrite Ho in Hev.
      apply negb_true_iff in Hev; exact Hev. }
    constructor; [exact Hx'|].
    apply IH; auto. apply step_pending_ok, Hw.
Qed.

(** Without a new offer, a cleared [deferredPrompt] stays cleared, and a
    call that waits on [e] clears it when the choice for [e] arrives. *)
Lemma run_no_offer (evs : list Event) (w : World) :
  pending_ok w ->
  no_offer evs = true ->
  deferredPrompt (svc w) = None ->
  deferredPrompt (svc (run env evs w)) = None.
Proof.
  revert w; induction evs as [|ev evs IH]; intros w Hw Hn Hd; simpl; auto.
  simpl in Hn. apply andb_true_iff in Hn as [Hev Hn].
  apply IH; auto using step_pending_ok.
  pose proof (step_svc ev w Hw) as H.
  destruct ev as [[e|] | | e outcome]; try discriminate.
  - rewrite H; reflexivity.
  - rewrite H; exact Hd.
  - destruct H as [-> | [_ Hc]]; assumption.
Qed.

Lemma step_waits_on (ev : Event) (e0 : PromptEvent) (w : World) :
  pending_ok w ->
  waits_on e0 (pending w) = true ->
  match ev with
  | UserChoice e _ => Nat.eqb e0 e = false
  | _ => True
  end ->
  waits_on e0 (pending (step env ev w)) = true.
Proof.
  intros Hw Hin Hne; destruct ev as [[e|] | | e outcome]; simpl.
  - exact Hin.
  - exact Hin.
  - destruct (advance_show w) as [(_ & ->) | (e & k & _ & _ & ->)]; simpl.
    + exact Hin.
    + unfold waits_on in *; rewrite existsb_app, Hin; reflexivity.
  - apply resume_keeps; [exact Hw | |].
    + rewrite Nat.eqb_sym; exact Hne.
    + simpl. exact Hin.
Qed.

Lemma run_resolved (evs : list Event) (e0 : PromptEvent) (w : World) :
  pending_ok w ->
  no_offer evs = true ->
  waits_on e0 (pending w) = true ->
  resolves e0 evs = true ->
  deferredPrompt (svc (run env evs w)) = None.
Proof.
  revert w; induction evs as [|ev evs IH]; intros w Hw Hn Hin Hr;
    simpl in *; [discriminate|].
  apply andb_true_iff in Hn as [Hev Hn].
  destruct ev as [[e|] | | e outcome]; try discriminate; simpl in Hr.
  - apply IH; [apply step_pending_ok, Hw | exact Hn | | exact Hr].
    apply (step_waits_on (Window appinstalled)); auto.
  - apply IH; [apply step_pending_ok, Hw | exact Hn | | exact Hr].
    apply (step_waits_on CallShowInstallPrompt); auto.
  - destruct (Nat.eqb e0 e) eqn:Hee.
    + apply run_no_offer; auto using step_pending_ok.
      apply Nat.eqb_eq in Hee; subst e.
      apply (resume_hit e0 outcome (pending w)
               (mkWorld (svc w) [] (console w) (results w) (errors w)));
        auto. constructor.
    + apply IH; [apply step_pending_ok, Hw | exact Hn | | exact Hr].
      apply (step_waits_on (UserChoice e outcome)); auto.
Qed.

(** ** The claims about the install service *)

(** C2 (as amended).  Along every run of the event loop in which each
    [beforeinstallprompt] arrives while [isInstalled] is false, after
    construction and after every event [isInstalled] and [canInstall] are not
    both true. *)
Theorem installed_excludes_installable (evs : list Event) :
  offers_while_not_installed env evs (boot env) = true ->
  Forall (fun w => exclusive w = true)
         (boot env :: trajectory env evs (boot env)).
Proof.
  intros Hg. constructor.
  - unfold exclusive, boot, deliver; rewrite exec_constructor; simpl.
    apply negb_true_iff, andb_false_r.
  - apply trajectory_exclusive; auto using pending_ok_boot.
    unfold exclusive, boot, deliver; rewrite exec_constructor; simpl.
    apply negb_true_iff, andb_false_r.
Qed.

(** C3.  After any history [evs0], a first call of [showInstallPrompt],
    events [evs] without a [beforeinstallprompt] by the end of which the first
    call is over, and then a second call: the second call returns [false]
    at once on the no-offer path; it logs that no prompt is available, calls
    [prompt()] on nothing and changes no field. *)
Theorem second_call_finds_no_offer (evs0 evs : list Event) :
  let w0 := run env evs0 (boot env) in
  let w2 := run env evs (step env CallShowInstallPrompt w0) in
  no_offer evs = true ->
  call_settles w0 evs = true ->
  exec env showInstallPrompt (svc w2)
  = (svc w2, [Logged "No hay prompt de instalación disponible"], Returned false)
  /\ step env CallShowInstallPrompt w2
     = mkWorld (svc w2) (pending w2)
         (console w2 ++ [Logged "No hay prompt de instalación disponible"])
         (results w2 ++ [false]) (errors w2).
Proof.
  intros w0 w2 Hn Hs.
  assert (pending_ok w0) as Hw0 by apply run_pending_ok, pending_ok_boot.
  assert (deferredPrompt (svc w2) = None) as Hd.
  { unfold w2, call_settles in *; simpl.
    destruct (advance_show w0) as [(Hd0 & ->) | (e & k & Hd0 & Hk & ->)].
    - apply run_no_offer; auto.
    - rewrite Hd0 in Hs. apply (run_resolved evs e); auto.
      + unfold pending_ok; simpl. apply Forall_app; split; auto.
      + unfold waits_on; simpl. rewrite existsb_app; simpl.
        rewrite Nat.eqb_refl, orb_true_r; reflexivity. }
  split.
  - apply exec_show_without_offer, Hd.
  - simpl. destruct (advance_show w2) as [(_ & ->) | (e & k & Hd' & _)].
    + reflexivity.
    + rewrite Hd in Hd'; discriminate.
Qed.

(** C4.  A call made while an event [e] is held shows the prompt and waits
    for the choice; resumed with the outcome "accepted", in whatever state
    the fields are by then, it sets [isInstalled] to true and [canInstall] to
    false (and drops the event) and returns true, with no [appinstalled]
    event involved. *)
Theorem accepted_marks_installed (i c : bool) (e : PromptEvent) :
  exists k : string -> M bool,
    exec env showInstallPrompt (mkState i c (Some e))
    = (mkState i c (Some e), [Prompted e], Suspended e k)
    /\ forall s' : State,
         exec env (k "accepted") s'
         = (mkState true false None,
            [Logged "Usuario aceptó la instalación"], Returned true)
         /\ isInstalled (fst (fst (exec env (k "accepted") s'))) = true
         /\ canInstall (fst (fst (exec env (k "accepted") s'))) = false.
Proof.
  eexists; split; [reflexivity|].
  intros s'; repeat split; reflexivity.
Qed.

(** C5.  Resumed with the outcome "dismissed", the call sets [canInstall] to
    false and [deferredPrompt] to null, leaves [isInstalled] as it finds it,
    and returns false. *)
Theorem dismissed_clears_only_the_offer (i c : bool) (e : PromptEvent) :
  exists k : string -> M bool,
    exec env showInstallPrompt (mkState i c (Some e))
    = (mkState i c (Some e), [Prompted e], Suspended e k)
    /\ forall s' : State,
         exec env (k "dismissed") s'
         = (mkState (_isInstalled s') false None,
            [Logged "Usuario rechazó la instalación"], Returned false).
Proof.
  eexists; split; [reflexivity|].
  intros s'; reflexivity.
Qed.

(** C6 (as amended).  With no event held, [showInstallPrompt] returns
    [false] at once: it does not suspend, raises nothing, calls [prompt()] on
    nothing and changes no field.  Its result type is boolean, and [false] is
    also what a call returns whose prompt was dismissed. *)
Theorem no_offer_returns_false (i c : bool) :
  exec env showInstallPrompt (mkState i c None)
  = (mkState i c None, [Logged "No hay prompt de instalación disponible"],
     Returned false)
  /\ forall (i' c' : bool) (e : PromptEvent),
       exists k : string -> M bool,
         exec env showInstallPrompt (mkState i' c' (Some e))
         = (mkState i' c' (Some e), [Prompted e], Suspended e k)
         /\ forall s' : State, snd (exec env (k "dismissed") s') = Returned false.
Proof.
  split; [reflexivity|].
  intros i' c' e. eexists; split; [reflexivity|].
  intros s'; reflexivity.
Qed.

(** C10.  In every world reached by the event loop, [canInstall] is true
    exactly when [deferredPrompt] holds an event, and no operation raised an
    exception: [prompt()] was never called on null. *)
Theorem can_install_iff_offer_held (evs : list Event) :
  let w := run env evs (boot env) in
  canInstall (svc w) = truthy (deferredPrompt (svc w))
  /\ errors w = [].
Proof.
  apply run_offer_held; [apply pending_ok_boot | reflexivity | reflexivity].
Qed.

End InstallService.

(** ** Concrete runs of the install service *)

Section InstallServiceRuns.
Import PwaInstallService.

(** C2, as stated, fails: the user accepts the prompt for event 0, and a
    later [beforeinstallprompt] (event 1) sets [canInstall] while
    [isInstalled] is still true. *)
Lemma offer_after_install_breaks_exclusion :
  let w := run browser_tab
             [Window (beforeinstallprompt 0); CallShowInstallPrompt;
              UserChoice 0 "accepted"; Window (beforeinstallprompt 1)]
             (boot browser_tab) in
  isInstalled (svc w) = true /\ canInstall (svc w) = true.
Proof. split; reflexivity. Qed.

(** The same from an installed (standalone) start. *)
Lemma offer_in_standalone_breaks_exclusion :
  let w := run (mkPlatform true None) [Window (beforeinstallprompt 0)]
             (boot (mkPlatform true None)) in
  isInstalled (svc w) = true /\ canInstall (svc w) = true.
Proof. split; reflexivity. Qed.

Lemma installed_excludes_installable_witness :
  Forall (fun w => exclusive w = true)
         (boot browser_tab
          :: trajectory browser_tab
               [Window (beforeinstallprompt 0); CallShowInstallPrompt;
                UserChoice 0 "dismissed"; Window (beforeinstallprompt 1);
                Window appinstalled]
               (boot browser_tab)).
Proof.
  apply (installed_excludes_installable browser_tab). reflexivity.
Defined.

Lemma second_call_finds_no_offer_witness :
  let w2 := run browser_tab [UserChoice 0 "dismissed"; Window appinstalled]
              (step browser_tab CallShowInstallPrompt
                 (run browser_tab [Window (beforeinstallprompt 0)]
                    (boot browser_tab))) in
  exec browser_tab showInstallPrompt (svc w2)
  = (svc w2, [Logged "No hay prompt de instalación disponible"], Returned false)
  /\ step browser_tab CallShowInstallPrompt w2
     = mkWorld (svc w2) (pending w2)
         (console w2 ++ [Logged "No hay prompt de instalación disponible"])
         (results w2 ++ [false]) (errors w2).
Proof.
  apply (second_call_finds_no_offer browser_tab
           [Window (beforeinstallprompt 0)]
           [UserChoice 0 "dismissed"; Window appinstalled]);
    reflexivity.
Defined.

(** C6, as stated, fails: the value of a call made with no offer and the
    value of a call whose prompt was dismissed are the same value. *)
Lemma unavailable_same_value_as_dismissed :
  results (run browser_tab [CallShowInstallPrompt] (boot browser_tab))
  = results (run browser_tab
               [Window (beforeinstallprompt 0); CallShowInstallPrompt;
                UserChoice 0 "dismissed"]
               (boot browser_tab)).
Proof. reflexivity. Qed.

End InstallServiceRuns.

(** * Properties of the install banner *)

Section InstallBanner.
Import PwaInstallService InstallBannerComponent.

Lemma item_is_lookup (key value : string) (store : gmap string string) :
  item_is key value store = true <-> store !! key = Some value.
Proof.
  unfold item_is, getItem. destruct (store !! key) as [v|]; split; intros H;
    try discriminate.
  - apply String.eqb_eq in H; subst; reflexivity.
  - inversion H; apply String.eqb_refl.
Qed.

(** C1.  The banner's predicate is the conjunction of "not installed",
    "can install" and "the store does not hold the string true under the
    banner's key", for all values of the three. *)
Theorem showBanner_iff (s : State) (store : gmap string string) :
  let dismissed :=
    bool_decide (store !! "install-banner-dismissed" = Some "true") in
  showBanner s store = negb (isInstalled s) && canInstall s && negb dismissed
  /\ (showBanner s store = true
      <-> isInstalled s = false /\ canInstall s = true /\ dismissed = false).
Proof.
  intros dismissed.
  assert (item_is "install-banner-dismissed" "true" store = dismissed) as Hd.
  { unfold dismissed. destruct (item_is _ _ store) eqn:H.
    - apply item_is_lookup in H. rewrite bool_decide_eq_true_2; auto.
    - rewrite bool_decide_eq_false_2; auto.
      intros H'. apply item_is_lookup in H'. congruence. }
  unfold showBanner; rewrite Hd. split; [reflexivity|].
  destruct (isInstalled s), (canInstall s), dismissed; simpl; split;
    intuition congruence.
Qed.

(** The eight rows of the table, over concrete stores. *)
Lemma showBanner_table :
  let flag : gmap string string := {[ "install-banner-dismissed" := "true" ]} in
  map (fun '(i, c, store) => showBanner (mkState i c None) store)
      [ (false, false, ∅); (false, false, flag);
        (false, true, ∅);  (false, true, flag);
        (true, false, ∅);  (true, false, flag);
        (true, true, ∅);   (true, true, flag) ]
  = [ false; false; true; false; false; false; false; false ].
Proof. vm_compute. reflexivity. Qed.

Lemma dismiss_sets_flag (store : gmap string string) :
  item_is "install-banner-dismissed" "true" (fst (dismiss store)) = true.
Proof.
  apply item_is_lookup. unfold dismiss, setItem; simpl.
  apply lookup_insert_eq.
Qed.

Lemma apply_op_keeps_flag (op : StorageOp) (store : gmap string string) :
  clears_flag op = false ->
  item_is "install-banner-dismissed" "true" store = true ->
  item_is "install-banner-dismissed" "true" (apply_op op store) = true.
Proof.
  intros Hop Hf. apply item_is_lookup. apply item_is_lookup in Hf.
  destruct op as [key value | key |]; simpl in *; try discriminate.
  - unfold setItem. destruct (String.eqb key "install-banner-dismissed") eqn:Hk.
    + apply String.eqb_eq in Hk; subst key. simpl in Hop.
      apply negb_false_iff, String.eqb_eq in Hop; subst value.
      apply lookup_insert_eq.
    + apply String.eqb_neq in Hk. rewrite lookup_insert_ne; auto.
  - apply String.eqb_neq in Hop. rewrite lookup_delete_ne; auto.
Qed.

Lemma flag_hides (s : State) (store : gmap string string) :
  item_is "install-banner-dismissed" "true" store = true ->
  showBanner s store = false.
Proof.
  intros H; unfold showBanner; rewrite H; simpl. apply andb_false_r.
Qed.

Lemma app_step_keeps_flag (env : Platform) (ev : AppEvent) (a : App) :
  match ev with External op => clears_flag op = false | _ => True end ->
  item_is "install-banner-dismissed" "true" (localStorage a) = true ->
  item_is "install-banner-dismissed" "true" (localStorage (app_step env ev a))
  = true.
Proof.
  intros Hev Hf; destruct ev as [ev | | op]; simpl.
  - exact Hf.
  - apply dismiss_sets_flag.
  - apply apply_op_keeps_flag; assumption.
Qed.

End InstallBanner.


(** * Properties of the notification service *)

Section NotificationService.
Import PwaNotificationService.

Variable env : Platform.

(** [requestPermission] touches no field and calls the permission API at
    most once. *)
Lemma exec_requestPermission (this : Service) :
  exec env requestPermission this
  = if notificationInWindow env then
      match notificationRequestPermission env with
      | Fulfilled permission =>
          (this, [PermissionRequested], inr (String.eqb permission "granted"))
      | Rejected reason => (this, [PermissionRequested], inl (Rejection reason))
      end
    else (this, [Warned "Este navegador no soporta notificaciones"], inr false).
Proof.
  unfold requestPermission; simpl.
  destruct (notificationInWindow env); simpl; [|reflexivity].
  destruct (notificationRequestPermission env); reflexivity.
Qed.

(** C7.  For every key: when [requestPermission] resolves to false (the
    permission was denied or left at its default, or the browser has no
    Notification API), [subscribeToNotifications] makes no call to
    [swPush.requestSubscription], gets hold of no subscription handle, leaves
    the service as it was and returns normally. *)
Theorem no_permission_no_subscription
    (vapidPublicKey : string) (this : Service) :
  result_of (exec env requestPermission this) = inr false ->
  let r := exec env (subscribeToNotifications vapidPublicKey) this in
  existsb is_subscription_request (effects_of r) = false
  /\ omap handle_of (effects_of r) = []
  /\ service_after r = this
  /\ result_of r = inr tt.
Proof.
  rewrite exec_requestPermission.
  unfold subscribeToNotifications, requestPermission; simpl.
  destruct (isEnabled env); simpl; [|intros _; repeat split].
  destruct (notificationInWindow env); simpl; [|intros _; repeat split].
  destruct (notificationRequestPermission env) as [permission|reason]; simpl;
    [|discriminate].
  destruct (String.eqb permission "granted"); simpl; [discriminate|].
  intros _; repeat split.
Qed.

(** C9 (as amended).  When the transport is enabled, the permission is
    granted and [requestSubscription] resolves to [sub], the call asks for
    the permission, subscribes with the given key, writes [sub] to the
    console and returns; the service comes back unchanged: the handle is
    stored nowhere. *)
Theorem subscription_only_logged
    (vapidPublicKey : string) (this : Service) (sub : PushSubscription) :
  isEnabled env = true ->
  result_of (exec env requestPermission this) = inr true ->
  requestSubscription env vapidPublicKey = Fulfilled sub ->
  exec env (subscribeToNotifications vapidPublicKey) this
  = (this,
     [PermissionRequested; SubscriptionRequested vapidPublicKey;
      Logged "Suscripción exitosa:" (Some sub)],
     inr tt).
Proof.
  rewrite exec_requestPermission.
  unfold subscribeToNotifications, requestPermission; simpl.
  intros -> Hp Hs; simpl.
  destruct (notificationInWindow env); simpl in *; [|discriminate].
  destruct (notificationRequestPermission env) as [permission|reason];
    simpl in *; [|discriminate].
  destruct (String.eqb permission "granted"); simpl in *; [|discriminate].
  rewrite Hs; reflexivity.
Qed.

End NotificationService.

Section NotificationServiceRuns.
Import PwaNotificationService.

Lemma no_permission_no_subscription_witness :
  let r := exec (denying 7) (subscribeToNotifications "BEl62iUYgUivx")
             (mkService 0) in
  existsb is_subscription_request (effects_of r) = false
  /\ omap handle_of (effects_of r) = []
  /\ service_after r = mkService 0
  /\ result_of r = inr tt.
Proof.
  apply (no_permission_no_subscription (denying 7) "BEl62iUYgUivx" (mkService 0)).
  reflexivity.
Defined.

Lemma subscription_only_logged_witness :
  exec (granting 7) (subscribeToNotifications "BEl62iUYgUivx") (mkService 0)
  = (mkService 0,
     [PermissionRequested; SubscriptionRequested "BEl62iUYgUivx";
      Logged "Suscripción exitosa:" (Some 7)],
     inr tt).
Proof.
  apply (subscription_only_logged (granting 7) "BEl62iUYgUivx" (mkService 0) 7);
    reflexivity.
Defined.

(** C9, as stated, fails: two successful calls that received different
    handles leave the same service behind, so nothing read from the service
    afterwards can give back the handle. *)
Lemma subscription_not_retained :
  ~ exists get : Service -> option PushSubscription,
      get (service_after (exec (granting 1) (subscribeToNotifications "k")
                            (mkService 0))) = Some 1
      /\ get (service_after (exec (granting 2) (subscribeToNotifications "k")
                               (mkService 0))) = Some 2.
Proof.
  intros (get & H1 & H2). cbv in H1, H2. congruence.
Qed.

End NotificationServiceRuns.

(** * Further properties of the install service *)

Section InstallServiceMore.
Import PwaInstallService.

Variable env : Platform.

(** ** What [resume] does, field by field *)

Lemma settled_isInstalled (outcome : string) (s : State) :
  _isInstalled (fst (fst (settled_with outcome s)))
  = _isInstalled s || String.eqb outcome "accepted".
Proof.
  unfold settled_with; destruct (String.eqb outcome "accepted"); simpl.
  - rewrite orb_true_r; reflexivity.
  - rewrite orb_false_r; reflexivity.
Qed.

Lemma settled_console (outcome : string) (s : State) :
  prompted_events (snd (fst (settled_with outcome s))) = []
  /\ captured_events (snd (fst (settled_with outcome s))) = [].
Proof.
  unfold settled_with; destruct (String.eqb outcome "accepted"); split;
    reflexivity.
Qed.

Lemma resume_isInstalled (e : PromptEvent) (outcome : string)
    (waiting : list Pending) (w : World) :
  Forall (fun c : Pending => resumes_ok (snd c)) waiting ->
  _isInstalled (svc (resume env e outcome waiting w))
  = _isInstalled (svc w)
    || (waits_on e waiting && String.eqb outcome "accepted").
Proof.
  revert w; induction waiting as [|[e' k] rest IH]; intros w Hall; simpl.
  - rewrite orb_false_r; reflexivity.
  - inversion Hall as [|? ? Hk Hrest]; subst; simpl in Hk.
    destruct (Nat.eqb e e'); simpl.
    + rewrite (IH _ Hrest), (advance_resumed env k outcome w Hk); simpl.
      rewrite settled_isInstalled.
      destruct (_isInstalled (svc w)), (String.eqb outcome "accepted"),
        (waits_on e rest); reflexivity.
    + rewrite (IH _ Hrest); reflexivity.
Qed.

Lemma resume_results (e : PromptEvent) (outcome : string)
    (waiting : list Pending) (w : World) :
  Forall (fun c : Pending => resumes_ok (snd c)) waiting ->
  results (resume env e outcome waiting w)
  = (results w
     ++ map (fun _ => String.eqb outcome "accepted")
            (filter (fun e' => Nat.eqb e e' = true) (map fst waiting)))%list
  /\ map fst (pending (resume env e outcome waiting w))
     = (map fst (pending w)
        ++ filter (fun e' => Nat.eqb e e' = false) (map fst waiting))%list.
Proof.
  revert w; induction waiting as [|[e' k] rest IH]; intros w Hall; simpl.
  - rewrite !app_nil_r; auto.
  - inversion Hall as [|? ? Hk Hrest]; subst; simpl in Hk.
    rewrite !filter_cons; simpl.
    destruct (Nat.eqb e e') eqn:Hee; simpl.
    + destruct (IH (advance env (k outcome) w) Hrest) as [Hr Hp].
      rewrite Hr, Hp, (advance_resumed env k outcome w Hk); simpl.
      rewrite <- app_assoc; auto.
    + destruct (IH (keep (e', k) w) Hrest) as [Hr Hp].
      rewrite Hr, Hp; simpl.
      rewrite map_app, <- app_assoc; auto.
Qed.

Lemma resume_console (e : PromptEvent) (outcome : string)
    (waiting : list Pending) (w : World) :
  Forall (fun c : Pending => resumes_ok (snd c)) waiting ->
  prompted_events (console (resume env e outcome waiting w))
  = prompted_events (console w)
  /\ captured_events (console (resume env e outcome waiting w))
     = captured_events (console w).
Proof.
  revert w; induction waiting as [|[e' k] rest IH]; intros w Hall; simpl.
  - auto.
  - inversion Hall as [|? ? Hk Hrest]; subst; simpl in Hk.
    destruct (Nat.eqb e e').
    + destruct (IH (advance env (k outcome) w) Hrest) as [Hp Hc].
      rewrite Hp, Hc, (advance_resumed env k outcome w Hk); simpl.
      unfold prompted_events, captured_events. rewrite !omap_app.
      destruct (settled_console outcome (svc w)) as [Hp' Hc'].
      unfold prompted_events, captured_events in Hp', Hc'.
      rewrite Hp', Hc', !app_nil_r; auto.
    + apply (IH (keep (e', k) w) Hrest).
Qed.

Lemma step_isInstalled (ev : Event) (w : World) :
  pending_ok w ->
  isInstalled (svc w) = true ->
  isInstalled (svc (step env ev w)) = true.
Proof.
  intros Hw Hi. unfold isInstalled in *.
  destruct ev as [[e|] | | e outcome]; simpl.
  - exact Hi.
  - reflexivity.
  - destruct (advance_show env w) as [(_ & ->) | (e & k & _ & _ & ->)]; exact Hi.
  - rewrite resume_isInstalled by exact Hw. simpl. rewrite Hi; reflexivity.
Qed.

Lemma run_isInstalled (evs : list Event) (w : World) :
  pending_ok w ->
  isInstalled (svc w) = true ->
  isInstalled (svc (run env evs w)) = true.
Proof.
  revert w; induction evs as [|ev evs IH]; intros w Hw Hi; simpl; auto.
  apply IH; [apply step_pending_ok, Hw | apply step_isInstalled; assumption].
Qed.

(** The held event was captured, and every prompted event was captured. *)
Lemma run_prompted_captured (evs : list Event) (w : World) :
  pending_ok w ->
  (forall e, deferredPrompt (svc w) = Some e -> e ∈ captured_events (console w)) ->
  prompted_events (console w) ⊆ captured_events (console w) ->
  prompted_events (console (run env evs w))
  ⊆ captured_events (console (run env evs w)).
Proof.
  revert w; induction evs as [|ev evs IH]; intros w Hw Hd Hs; simpl; auto.
  apply IH; [apply step_pending_ok, Hw | |].
  - intros e0. pose proof (step_svc env ev w Hw) as H.
    destruct ev as [[e|] | | e outcome].
    + rewrite H; simpl. intros [= ->].
      unfold captured_events; rewrite omap_app; simpl.
      apply elem_of_app; right. apply list_elem_of_singleton; reflexivity.
    + rewrite H; discriminate.
    + rewrite H; simpl. intros He; specialize (Hd e0 He).
      destruct (advance_show env w) as [(_ & ->) | (e & k & _ & _ & ->)]; simpl;
        unfold captured_events in *; rewrite omap_app; apply elem_of_app; auto.
    + destruct H as [H | [_ H]]; [|rewrite H; discriminate].
      rewrite H; simpl. intros He; specialize (Hd e0 He).
      destruct (resume_console e outcome (pending w)
                  (mkWorld (svc w) [] (console w) (results w) (errors w)) Hw)
        as [_ Hc].
      rewrite Hc; exact Hd.
  - destruct ev as [[e|] | | e outcome]; simpl.
    + unfold prompted_events, captured_events in *; rewrite !omap_app; simpl.
      rewrite app_nil_r. intros x Hx. apply elem_of_app; left; auto.
    + unfold prompted_events, captured_events in *; rewrite !omap_app; simpl.
      rewrite !app_nil_r; exact Hs.
    + destruct (advance_show env w) as [(_ & ->) | (e & k & He & _ & ->)]; simpl;
        unfold prompted_events, captured_events in *; rewrite !omap_app; simpl.
      * rewrite !app_nil_r; exact Hs.
      * rewrite app_nil_r. intros x Hx. apply elem_of_app in Hx as [Hx|Hx].
        -- auto.
        -- apply list_elem_of_singleton in Hx; subst x. apply Hd, He.
    + destruct (resume_console e outcome (pending w)
                  (mkWorld (svc w) [] (console w) (results w) (errors w)) Hw)
        as [Hp Hc].
      rewrite Hp, Hc; exact Hs.
Qed.

Lemma captured_boot :
  (forall e, deferredPrompt (svc (boot env)) = Some e ->
             e ∈ captured_events (console (boot env)))
  /\ prompted_events (console (boot env)) ⊆ captured_events (console (boot env)).
Proof. split; [intros e; discriminate | intros x Hx; exact Hx]. Qed.

Lemma offer_during_wait_cleared
    (w : World) (e1 e2 : PromptEvent) (outcome : string) :
  pending_ok w ->
  deferredPrompt (svc w) = Some e1 ->
  let w3 := run env [CallShowInstallPrompt; Window (beforeinstallprompt e2);
                     UserChoice e1 outcome] w in
  cleared (svc w3)
  /\ prompted_events (console w3) = (prompted_events (console w) ++ [e1])%list.
Proof.
  intros Hw Hd w3; unfold w3; cbn [run step].
  destruct (advance_show env w) as [(Hn & _) | (e & k & He & Hk & ->)];
    [rewrite Hd in Hn; discriminate|].
  rewrite Hd in He; injection He as <-.
  unfold deliver; rewrite exec_offer; cbn [svc pending console results errors].
  assert (Forall (fun c : Pending => resumes_ok (snd c))
                 (pending w ++ [(e1, k)])%list) as Hall
    by (apply Forall_app; split; auto).
  split.
  - apply resume_hit; [exact Hall | constructor |].
    unfold waits_on; rewrite existsb_app; simpl.
    rewrite Nat.eqb_refl, orb_true_r; reflexivity.
  - match goal with |- context [resume env e1 outcome ?ws ?w0] =>
      destruct (resume_console e1 outcome ws w0 Hall) as [-> _]
    end.
    unfold prompted_events; cbn [console]. rewrite !omap_app; simpl.
    rewrite !app_nil_r; reflexivity.
Qed.

(** ** The properties *)

(** X1.  After construction [isInstalled] is true exactly when the
    display-mode query matches or [navigator.standalone] is the boolean true
    (a missing or false property does not count); [canInstall] is false, no
    event is held, and nothing was logged, prompted or raised. *)
Theorem constructor_reads_standalone :
  boot env
  = mkWorld
      (mkState (bool_decide (displayModeStandalone env = true
                             \/ navigatorStandalone env = Some true))
               false None)
      [] [] [] [].
Proof.
  unfold boot, deliver; rewrite exec_constructor; simpl.
  destruct (displayModeStandalone env), (navigatorStandalone env) as [[|]|];
    reflexivity.
Qed.

(** X2.  [isInstalled] never goes back to false: once it is true in a
    reachable world it is true after every further sequence of events. *)
Theorem isInstalled_never_reverts (evs0 evs : list Event) :
  isInstalled (svc (run env evs0 (boot env))) = true ->
  isInstalled (svc (run env evs (run env evs0 (boot env)))) = true.
Proof.
  apply run_isInstalled, run_pending_ok, pending_ok_boot.
Qed.

(** X3.  The service has no guard against overlapping calls: a second
    [showInstallPrompt()] made while the first still waits for the user calls
    [prompt()] on the same event again, and both calls wait on that event. *)
Theorem overlapping_calls_prompt_twice (evs0 : list Event) (e : PromptEvent) :
  let w1 := step env (Window (beforeinstallprompt e)) (run env evs0 (boot env)) in
  let w2 := run env [CallShowInstallPrompt; CallShowInstallPrompt] w1 in
  console w2 = (console w1 ++ [Prompted e; Prompted e])%list
  /\ map fst (pending w2) = (map fst (pending w1) ++ [e; e])%list
  /\ svc w2 = svc w1
  /\ results w2 = results w1.
Proof.
  intros w1 w2. unfold w2; cbn [run step].
  assert (deferredPrompt (svc w1) = Some e) as Hd by reflexivity.
  destruct (advance_show env w1) as [(Hn & _) | (e1 & k1 & He1 & _ & ->)];
    [rewrite Hd in Hn; discriminate|].
  rewrite Hd in He1; injection He1 as <-.
  match goal with |- context [advance env showInstallPrompt ?w] =>
    destruct (advance_show env w) as [(Hn & _) | (e2 & k2 & He2 & _ & ->)]
  end; [cbn [svc] in Hn; rewrite Hd in Hn; discriminate|].
  cbn [svc] in He2. rewrite Hd in He2; injection He2 as <-.
  cbn [console pending svc results]. rewrite !map_app, <- !app_assoc. auto.
Qed.

(** X4.  An offer that arrives while a call waits for the user is lost when
    that call is resumed: whatever the outcome, the resumed call clears
    [deferredPrompt] and [canInstall], [prompt()] is never called on the
    newer event, and the next call returns false at once. *)
Theorem offer_during_wait_is_lost
    (evs0 : list Event) (e1 e2 : PromptEvent) (outcome : string) :
  let w1 := step env (Window (beforeinstallprompt e1)) (run env evs0 (boot env)) in
  let w3 := run env [CallShowInstallPrompt; Window (beforeinstallprompt e2);
                     UserChoice e1 outcome] w1 in
  canInstall (svc w3) = false
  /\ deferredPrompt (svc w3) = None
  /\ prompted_events (console w3) = (prompted_events (console w1) ++ [e1])%list
  /\ exec env showInstallPrompt (svc w3)
     = (svc w3, [Logged "No hay prompt de instalación disponible"],
        Returned false).
Proof.
  intros w1 w3.
  destruct (offer_during_wait_cleared w1 e1 e2 outcome) as ([Hc Hn] & Hp).
  - apply step_pending_ok, run_pending_ok, pending_ok_boot.
  - reflexivity.
  - split; [exact Hc|]. split; [exact Hn|]. split; [exact Hp|].
    apply exec_show_without_offer, Hn.
Qed.

(** X5.  In every reachable world, each event on which [prompt()] was called
    is an event that a [beforeinstallprompt] listener run captured (and whose
    default handling it prevented). *)
Theorem prompt_only_on_captured_events (evs : list Event) :
  prompted_events (console (run env evs (boot env)))
  ⊆ captured_events (console (run env evs (boot env))).
Proof.
  apply run_prompted_captured;
    [apply pending_ok_boot | apply captured_boot | apply captured_boot].
Qed.

(** X6.  When the choice for an event [e] arrives, every call that waits on
    [e] resolves, each to true if the outcome is the string accepted and to
    false for any other outcome; calls that wait on other events keep
    waiting; [isInstalled] becomes true if some call waited on [e] and the
    outcome is accepted, and is otherwise unchanged. *)
Theorem user_choice_settles_waiting_calls
    (evs0 : list Event) (e : PromptEvent) (outcome : string) :
  let w := run env evs0 (boot env) in
  let w' := step env (UserChoice e outcome) w in
  results w'
  = (results w
     ++ map (fun _ => String.eqb outcome "accepted")
            (filter (fun e' => Nat.eqb e e' = true) (map fst (pending w))))%list
  /\ map fst (pending w')
     = filter (fun e' => Nat.eqb e e' = false) (map fst (pending w))
  /\ isInstalled (svc w')
     = isInstalled (svc w)
       || (waits_on e (pending w) && String.eqb outcome "accepted")
  /\ errors w' = errors w.
Proof.
  intros w w'.
  assert (pending_ok w) as Hw by apply run_pending_ok, pending_ok_boot.
  unfold w'; cbn [step].
  destruct (resume_results e outcome (pending w)
              (mkWorld (svc w) [] (console w) (results w) (errors w)) Hw)
    as [Hr Hp].
  split; [exact Hr|]. split; [exact Hp|]. split.
  - unfold isInstalled. rewrite resume_isInstalled by exact Hw. reflexivity.
  - apply (resume_fields env e outcome (pending w)
             (mkWorld (svc w) [] (console w) (results w) (errors w)) Hw).
    constructor.
Qed.

End InstallServiceMore.

Section InstallServiceMoreRuns.
Import PwaInstallService.

Lemma isInstalled_never_reverts_witness :
  isInstalled
    (svc (run browser_tab
            [Window (beforeinstallprompt 1); CallShowInstallPrompt;
             UserChoice 1 "dismissed"]
            (run browser_tab [Window appinstalled] (boot browser_tab))))
  = true.
Proof.
  apply (isInstalled_never_reverts browser_tab [Window appinstalled]
           [Window (beforeinstallprompt 1); CallShowInstallPrompt;
            UserChoice 1 "dismissed"]).
  reflexivity.
Defined.

End InstallServiceMoreRuns.

(** * Further properties of the install banner *)

Section InstallBannerMore.
Import PwaInstallService InstallBannerComponent.

Variable env : Platform.


(** X7.  [install()] with no event held returns at once and logs only the
    service's line.  With an event held it shows the prompt and waits; when
    resumed it logs the success line exactly when the outcome is accepted,
    and it never raises. *)
Theorem install_reports_acceptance (i c : bool) (e : PromptEvent) :
  exec env install (mkState i c None)
  = (mkState i c None, [Logged "No hay prompt de instalación disponible"],
     Returned tt)
  /\ exists k : string -> M unit,
       exec env install (mkState i c (Some e))
       = (mkState i c (Some e), [Prompted e], Suspended e k)
       /\ forall (outcome : string) (s' : State),
            exec env (k outcome) s'
            = if String.eqb outcome "accepted"
              then (mkState true false None,
                    [Logged "Usuario aceptó la instalación";
                     Logged "¡App instalada exitosamente!"],
                    Returned tt)
              else (mkState (_isInstalled s') false None,
                    [Logged "Usuario rechazó la instalación"], Returned tt).
Proof.
  split; [reflexivity|].
  eexists; split; [reflexivity|].
  intros outcome s'; simpl.
  destruct (String.eqb outcome "accepted"); reflexivity.
Qed.

(** X8.  Once [isInstalled] is true in a reachable world, the banner's
    predicate is false after every further sequence of events and for every
    content of the store. *)
Theorem installed_hides_banner_for_good
    (evs0 evs : list Event) (store : gmap string string) :
  isInstalled (svc (run env evs0 (boot env))) = true ->
  showBanner (svc (run env evs (run env evs0 (boot env)))) store = false.
Proof.
  intros Hi. unfold showBanner.
  rewrite (run_isInstalled env evs (run env evs0 (boot env)));
    [reflexivity | apply run_pending_ok, pending_ok_boot | exact Hi].
Qed.

(** X9.  [dismiss()] writes one key: the value of every other key of the
    store is what it was. *)
Theorem dismiss_leaves_other_keys (key : string) (store : gmap string string) :
  key <> "install-banner-dismissed" ->
  getItem key (fst (dismiss store)) = getItem key store.
Proof.
  intros Hk. unfold dismiss, getItem, setItem; simpl.
  apply lookup_insert_ne. congruence.
Qed.


End InstallBannerMore.

Section InstallBannerMoreRuns.
Import PwaInstallService InstallBannerComponent.

Lemma installed_hides_banner_for_good_witness :
  showBanner
    (svc (run browser_tab [Window (beforeinstallprompt 1)]
            (run browser_tab
               [Window (beforeinstallprompt 0); CallShowInstallPrompt;
                UserChoice 0 "accepted"]
               (boot browser_tab))))
    ∅
  = false.
Proof.
  apply (installed_hides_banner_for_good browser_tab
           [Window (beforeinstallprompt 0); CallShowInstallPrompt;
            UserChoice 0 "accepted"]
           [Window (beforeinstallprompt 1)] ∅).
  reflexivity.
Defined.

Lemma dismiss_leaves_other_keys_witness :
  getItem "theme" (fst (dismiss {[ "theme" := "dark" ]}))
  = getItem "theme" {[ "theme" := "dark" ]}.
Proof.
  apply (dismiss_leaves_other_keys "theme" {[ "theme" := "dark" ]}).
  discriminate.
Defined.


End InstallBannerMoreRuns.

(** * Further properties of the notification service *)

Section NotificationServiceMore.
Import PwaNotificationService.

Variable env : Platform.

(** X12.  [requestPermission()] gives true exactly when the Notification API
    exists and the permission promise is fulfilled with the string granted.
    Without the API it warns and does not ask; with it, it asks once.  It
    changes no field. *)
Theorem requestPermission_true_iff (this : Service) :
  let r := exec env requestPermission this in
  (result_of r = inr true
   <-> notificationInWindow env = true
       /\ notificationRequestPermission env = Fulfilled "granted")
  /\ effects_of r
     = (if notificationInWindow env then [PermissionRequested]
        else [Warned "Este navegador no soporta notificaciones"])
  /\ service_after r = this.
Proof.
  unfold requestPermission; simpl.
  destruct (notificationInWindow env); simpl.
  - destruct (notificationRequestPermission env) as [permission|reason]; simpl.
    + split; [|split; reflexivity]. split.
      * intros Hg. injection Hg as Hg.
        apply String.eqb_eq in Hg; subst; split; reflexivity.
      * intros [_ Hg]. injection Hg as ->. reflexivity.
    + split; [|split; reflexivity].
      split; [discriminate | intros [_ Hg]; discriminate].
  - split; [|split; reflexivity].
    split; [discriminate | intros [Hg _]; discriminate].
Qed.

(** X13.  [subscribeToNotifications] returns normally on every platform and
    for every key: a rejected permission or subscription promise is caught.
    It changes no field. *)
Theorem subscribe_never_throws (vapidPublicKey : string) (this : Service) :
  let r := exec env (subscribeToNotifications vapidPublicKey) this in
  result_of r = inr tt /\ service_after r = this.
Proof.
  unfold subscribeToNotifications, requestPermission; simpl.
  destruct (isEnabled env); simpl; [|auto].
  destruct (notificationInWindow env); simpl; [|auto].
  destruct (notificationRequestPermission env) as [permission|reason]; simpl;
    [|auto].
  destruct (String.eqb permission "granted"); simpl; [|auto].
  destruct (requestSubscription env vapidPublicKey); simpl; auto.
Qed.

(** X14.  The calls to [swPush.requestSubscription] made by one
    [subscribeToNotifications(key)]: exactly one, with [key] as server key,
    when the transport is enabled, the Notification API exists and the
    permission is granted; none otherwise. *)
Theorem subscribe_calls_transport_once
    (vapidPublicKey : string) (this : Service) :
  omap (fun ef => match ef with
                  | SubscriptionRequested key => Some key
                  | _ => None
                  end)
       (effects_of (exec env (subscribeToNotifications vapidPublicKey) this))
  = if isEnabled env && notificationInWindow env
       && match notificationRequestPermission env with
          | Fulfilled permission => String.eqb permission "granted"
          | Rejected _ => false
          end
    then [vapidPublicKey] else [].
Proof.
  unfold subscribeToNotifications, requestPermission; simpl.
  destruct (isEnabled env); simpl; [|reflexivity].
  destruct (notificationInWindow env); simpl; [|reflexivity].
  destruct (notificationRequestPermission env) as [permission|reason]; simpl;
    [|reflexivity].
  destruct (String.eqb permission "granted"); simpl; [|reflexivity].
  destruct (requestSubscription env vapidPublicKey); reflexivity.
Qed.

(** X15.  When the permission is granted and the transport rejects the
    subscription, the call makes that one subscribe call, logs the rejection
    with [console.error] and returns normally; there is no second attempt. *)
Theorem subscribe_rejection_is_logged
    (vapidPublicKey reason : string) (this : Service) :
  isEnabled env = true ->
  result_of (exec env requestPermission this) = inr true ->
  requestSubscription env vapidPublicKey = Rejected reason ->
  exec env (subscribeToNotifications vapidPublicKey) this
  = (this,
     [PermissionRequested; SubscriptionRequested vapidPublicKey;
      ErrorLogged "Error al suscribirse a notificaciones:" (Rejection reason)],
     inr tt).
Proof.
  rewrite exec_requestPermission.
  unfold subscribeToNotifications, requestPermission; simpl.
  intros -> Hp Hs; simpl.
  destruct (notificationInWindow env); simpl in *; [|discriminate].
  destruct (notificationRequestPermission env) as [permission|why];
    simpl in *; [|discriminate].
  destruct (String.eqb permission "granted"); simpl in *; [|discriminate].
  rewrite Hs; reflexivity.
Qed.

(** X16.  When the permission promise itself rejects, the call logs that
    rejection with the same [console.error] line, makes no subscribe call
    and returns normally. *)
Theorem permission_rejection_is_logged
    (vapidPublicKey reason : string) (this : Service) :
  isEnabled env = true ->
  notificationInWindow env = true ->
  notificationRequestPermission env = Rejected reason ->
  exec env (subscribeToNotifications vapidPublicKey) this
  = (this,
     [PermissionRequested;
      ErrorLogged "Error al suscribirse a notificaciones:" (Rejection reason)],
     inr tt).
Proof.
  unfold subscribeToNotifications, requestPermission; simpl.
  intros He Hn Hr. rewrite He; simpl. rewrite Hn; simpl. rewrite Hr; reflexivity.
Qed.

(** X17.  With the service worker disabled, [subscribeToNotifications] only
    warns: the user is not asked for the permission and the transport is not
    called. *)
Theorem subscribe_disabled_only_warns
    (vapidPublicKey : string) (this : Service) :
  isEnabled env = false ->
  exec env (subscribeToNotifications vapidPublicKey) this
  = (this, [Warned "Service Worker no está habilitado"], inr tt).
Proof.
  unfold subscribeToNotifications; simpl. intros ->; reflexivity.
Qed.

(** X18.  [unsubscribe()] returns normally on every platform and changes no
    field.  Disabled, it does nothing and logs nothing; enabled, it calls
    [swPush.unsubscribe()] once and logs the success, or the rejection with
    [console.error]. *)
Theorem unsubscribe_never_throws (this : Service) :
  exec env unsubscribe this
  = (this,
     if isEnabled env then
       [UnsubscribeRequested;
        match swPushUnsubscribe env with
        | Fulfilled _ => Logged "Suscripción cancelada" None
        | Rejected reason =>
            ErrorLogged "Error al cancelar suscripción:" (Rejection reason)
        end]
     else [],
     inr tt).
Proof.
  unfold unsubscribe; simpl.
  destruct (isEnabled env); simpl; [|reflexivity].
  destruct (swPushUnsubscribe env); reflexivity.
Qed.

End NotificationServiceMore.

Section NotificationServiceMoreRuns.
Import PwaNotificationService.

Lemma subscribe_rejection_is_logged_witness :
  let env := mkPlatform true true (Fulfilled "granted")
               (fun _ => Rejected "AbortError") (Fulfilled tt) in
  exec env (subscribeToNotifications "BEl62iUYgUivx") (mkService 0)
  = (mkService 0,
     [PermissionRequested; SubscriptionRequested "BEl62iUYgUivx";
      ErrorLogged "Error al suscribirse a notificaciones:"
        (Rejection "AbortError")],
     inr tt).
Proof.
  apply (subscribe_rejection_is_logged
           (mkPlatform true true (Fulfilled "granted")
              (fun _ => Rejected "AbortError") (Fulfilled tt))
           "BEl62iUYgUivx" "AbortError" (mkService 0));
    reflexivity.
Defined.

Lemma permission_rejection_is_logged_witness :
  let env := mkPlatform true true (Rejected "NotAllowedError")
               (fun _ => Fulfilled 7) (Fulfilled tt) in
  exec env (subscribeToNotifications "BEl62iUYgUivx") (mkService 0)
  = (mkService 0,
     [PermissionRequested;
      ErrorLogged "Error al suscribirse a notificaciones:"
        (Rejection "NotAllowedError")],
     inr tt).
Proof.
  apply (permission_rejection_is_logged
           (mkPlatform true true (Rejected "NotAllowedError")
              (fun _ => Fulfilled 7) (Fulfilled tt))
           "BEl62iUYgUivx" "NotAllowedError" (mkService 0));
    reflexivity.
Defined.

Lemma subscribe_disabled_only_warns_witness :
  let env := mkPlatform false true (Fulfilled "granted")
               (fun _ => Fulfilled 7) (Fulfilled tt) in
  exec env (subscribeToNotifications "BEl62iUYgUivx") (mkService 0)
  = (mkService 0, [Warned "Service Worker no está habilitado"], inr tt).
Proof.
  apply (subscribe_disabled_only_warns
           (mkPlatform false true (Fulfilled "granted")
              (fun _ => Fulfilled 7) (Fulfilled tt))
           "BEl62iUYgUivx" (mkService 0)).
  reflexivity.
Defined.

End NotificationServiceMoreRuns.

(** * Properties of [listenToNotifications] *)

Section NotificationStreams.
Import PwaNotificationStreams.

Lemma emit_subscribe (observers : list Observer) (next : Observer)
    (value : Payload) :
  emit (subscribe next observers) value = (emit observers value ++ next value)%list.
Proof.
  unfold emit, subscribe. rewrite flat_map_app; simpl.
  rewrite app_nil_r; reflexivity.
Qed.

Lemma listen_isEnabled (n : nat) (swPush : SwPush) :
  isEnabled (Nat.iter n listenToNotifications swPush) = isEnabled swPush.
Proof.
  induction n as [|n IH]; simpl; [reflexivity|].
  unfold listenToNotifications at 1.
  destruct (isEnabled (Nat.iter n listenToNotifications swPush)) eqn:H;
    simpl; congruence.
Qed.

(** X19.  [listenToNotifications] has no guard against being called again:
    after [n] calls on an enabled transport each incoming message and each
    click is logged [n] more times than before, unchanged and on its own
    stream's label; on a disabled transport nothing is subscribed. *)
Theorem listening_again_logs_again
    (n : nat) (swPush : SwPush) (value : Payload) :
  let swPush' := Nat.iter n listenToNotifications swPush in
  emit (messages swPush') value
  = (emit (messages swPush) value
     ++ if isEnabled swPush
        then repeat (Logged "Notificación recibida:" value) n else [])%list
  /\ emit (notificationClicks swPush') value
     = (emit (notificationClicks swPush) value
        ++ if isEnabled swPush
           then repeat (Logged "Click en notificación:" value) n else [])%list.
Proof.
  induction n as [|n [IHm IHc]]; simpl.
  - destruct (isEnabled swPush); rewrite !app_nil_r; auto.
  - unfold listenToNotifications at 1 3.
    rewrite (listen_isEnabled n swPush).
    destruct (isEnabled swPush) eqn:He; simpl.
    + rewrite !emit_subscribe, IHm, IHc, <- !app_assoc; simpl.
      rewrite !repeat_cons; auto.
    + rewrite IHm, IHc; auto.
Qed.

End NotificationStreams.

(** * The memoised [showBanner] signal *)

Section ShowBannerSignal.
Import PwaInstallService InstallBannerComponent.

Variable env : Platform.

(** A turn that leaves the service alone leaves the memo alone: in
    particular [dismiss()] and every write to the store. *)
Lemma store_turn_keeps_memo (ev : AppEvent) (p : Page) :
  match ev with Service _ => False | _ => True end ->
  showBannerMemo (page_step env (Turn ev) p) = showBannerMemo p.
Proof.
  intros Hev. destruct ev as [ev | | op]; [destruct Hev | |]; simpl;
    destruct (showBannerMemo p) as [m|]; try reflexivity;
    unfold out_of_date; rewrite !eqb_reflx; simpl; rewrite andb_false_r;
    reflexivity.
Qed.

Lemma page_step_keeps_flag (ev : PageEvent) (p : Page) :
  page_never_cleared [ev] = true ->
  item_is "install-banner-dismissed" "true" (localStorage (app p)) = true ->
  item_is "install-banner-dismissed" "true"
    (localStorage (app (page_step env ev p))) = true.
Proof.
  intros Hev Hf. destruct ev as [ev|]; simpl.
  - apply app_step_keeps_flag; [|exact Hf].
    destruct ev as [ev | | op]; auto. simpl in Hev.
    rewrite andb_true_r in Hev. apply negb_true_iff, Hev.
  - unfold read. destruct (showBannerMemo p); exact Hf.
Qed.

Lemma page_run_keeps_flag (evs : list PageEvent) (p : Page) :
  page_never_cleared evs = true ->
  item_is "install-banner-dismissed" "true" (localStorage (app p)) = true ->
  item_is "install-banner-dismissed" "true"
    (localStorage (app (page_run env evs p))) = true.
Proof.
  revert p; induction evs as [|ev evs IH]; intros p Hn Hf; simpl; auto.
  simpl in Hn. apply andb_true_iff in Hn as [Hev Hn].
  apply IH; [exact Hn|]. apply page_step_keeps_flag; [|exact Hf].
  simpl; rewrite Hev; reflexivity.
Qed.

Lemma hidden_read (p : Page) : hidden p -> fst (read p) = false.
Proof.
  intros [Hf Hm]. unfold read.
  destruct (showBannerMemo p) as [m|]; simpl; [exact Hm|].
  apply flag_hides, Hf.
Qed.

Lemma hidden_step (ev : PageEvent) (p : Page) :
  page_never_cleared [ev] = true -> hidden p -> hidden (page_step env ev p).
Proof.
  intros Hev [Hf Hm]. split; [apply page_step_keeps_flag; assumption|].
  destruct ev as [ev|]; simpl.
  - destruct (showBannerMemo p) as [m|]; [|exact I].
    destruct (out_of_date _ _ m); [exact I | exact Hm].
  - unfold read. destruct (showBannerMemo p) as [m|] eqn:Hp; simpl.
    + rewrite Hp; exact Hm.
    + apply flag_hides, Hf.
Qed.

Lemma hidden_reads (evs : list PageEvent) (p : Page) :
  page_never_cleared evs = true ->
  hidden p ->
  Forall (fun b : bool => b = false) (page_reads env evs p).
Proof.
  revert p; induction evs as [|ev evs IH]; intros p Hn Hh; simpl.
  - constructor.
  - simpl in Hn. apply andb_true_iff in Hn as [Hev Hn].
    apply Forall_app; split.
    + destruct ev; constructor; [apply hidden_read, Hh | constructor].
    + apply IH; [exact Hn|]. apply hidden_step; [|exact Hh].
      simpl; rewrite Hev; reflexivity.
Qed.

(** C8 (the code at the failing input).  A fresh page in a browser tab
    with an empty store: an offer arrives and the template reads
    [showBanner()], which gives true; the user clicks the dismiss button and
    the template reads [showBanner()] again.  The second read still gives
    true, although the flag is in the store by then and a run of the
    function would give false: [dismiss()] changes no signal, so the memo is
    kept. *)
Theorem dismiss_does_not_hide_banner :
  let evs := [Turn (Service (Window (beforeinstallprompt 0))); ReadShowBanner;
              Turn ClickDismiss; ReadShowBanner] in
  let p0 := mkPage (mkApp (boot browser_tab) ∅) None in
  page_reads browser_tab evs p0 = [true; true]
  /\ localStorage (app (page_run browser_tab evs p0))
       !! "install-banner-dismissed" = Some "true"
  /\ shown (app (page_run browser_tab evs p0)) = false.
Proof. vm_compute. repeat split; reflexivity. Qed.

(** X10.  A write to the store is seen by [showBanner()] only when its
    function runs again.  After [dismiss()] and a write that clears the flag
    (removing the key, clearing the store, or overwriting the key with
    another string), the next read gives the kept value if there is one; if
    there is none, the function runs and gives "not installed and can
    install". *)
Theorem clearing_flag_seen_at_recomputation (p : Page) (op : StorageOp) :
  clears_flag op = true ->
  fst (read (page_step env (Turn (External op))
              (page_step env (Turn ClickDismiss) p)))
  = match showBannerMemo p with
    | Some m => memoValue m
    | None => negb (isInstalled (svc (world (app p))))
              && canInstall (svc (world (app p)))
    end.
Proof.
  intros Hop. unfold read.
  rewrite !store_turn_keeps_memo by exact I.
  destruct (showBannerMemo p) as [m|]; [reflexivity|].
  cbn [memoValue recompute page_step app app_step world localStorage].
  unfold shown; cbn [world localStorage svc].
  assert (item_is "install-banner-dismissed" "true"
            (apply_op op (fst (dismiss (localStorage (app p))))) = false) as Hf.
  { destruct (item_is _ _ (apply_op op _)) eqn:H; [|reflexivity].
    apply item_is_lookup in H.
    destruct op as [key value | key |]; simpl in *.
    - apply andb_true_iff in Hop as [Hk Hv].
      apply String.eqb_eq in Hk; subst key. unfold setItem in H.
      rewrite lookup_insert_eq in H. injection H as ->.
      rewrite String.eqb_refl in Hv; discriminate.
    - apply String.eqb_eq in Hop; subst key.
      rewrite lookup_delete_eq in H; discriminate.
    - rewrite lookup_empty in H; discriminate. }
  unfold showBanner. simpl in *. rewrite Hf; simpl. apply andb_true_r.
Qed.

(** X20.  What does hold after [dismiss()]: from the moment the memo is
    gone (a signal read by the last run has changed, or nothing was read
    yet), every read of [showBanner()] gives false, through any turns and
    reads, as long as no write to the store clears the flag. *)
Theorem dismissed_reads_false_once_recomputed
    (p : Page) (evs1 evs2 : list PageEvent) :
  page_never_cleared evs1 = true ->
  page_never_cleared evs2 = true ->
  showBannerMemo (page_run env evs1 (page_step env (Turn ClickDismiss) p))
  = None ->
  Forall (fun b : bool => b = false)
         (page_reads env evs2
            (page_run env evs1 (page_step env (Turn ClickDismiss) p))).
Proof.
  intros Hn1 Hn2 Hm. apply hidden_reads; [exact Hn2|].
  split; [|rewrite Hm; exact I].
  apply page_run_keeps_flag; [exact Hn1|].
  apply (dismiss_sets_flag (localStorage (app p))).
Qed.

End ShowBannerSignal.

Section ShowBannerSignalRuns.
Import PwaInstallService InstallBannerComponent.

Lemma clearing_flag_seen_at_recomputation_witness :
  let shown_page :=
    page_run browser_tab
      [Turn (Service (Window (beforeinstallprompt 0))); ReadShowBanner]
      (mkPage (mkApp (boot browser_tab) ∅) None) in
  fst (read (page_step browser_tab
               (Turn (External (RemoveItem "install-banner-dismissed")))
               (page_step browser_tab (Turn ClickDismiss) shown_page)))
  = match showBannerMemo shown_page with
    | Some m => memoValue m
    | None => negb (isInstalled (svc (world (app shown_page))))
              && canInstall (svc (world (app shown_page)))
    end.
Proof.
  apply (clearing_flag_seen_at_recomputation browser_tab
           (page_run browser_tab
              [Turn (Service (Window (beforeinstallprompt 0))); ReadShowBanner]
              (mkPage (mkApp (boot browser_tab) ∅) None))
           (RemoveItem "install-banner-dismissed")).
  reflexivity.
Defined.

Lemma dismissed_reads_false_once_recomputed_witness :
  let shown_page :=
    page_run browser_tab
      [Turn (Service (Window (beforeinstallprompt 0))); ReadShowBanner]
      (mkPage (mkApp (boot browser_tab) ∅) None) in
  Forall (fun b : bool => b = false)
    (page_reads browser_tab
       [ReadShowBanner; Turn (Service (Window (beforeinstallprompt 1)));
        ReadShowBanner; Turn (External (SetItem "theme" "dark"));
        ReadShowBanner]
       (page_run browser_tab
          [Turn (Service CallShowInstallPrompt);
           Turn (Service (UserChoice 0 "dismissed"))]
          (page_step browser_tab (Turn ClickDismiss) shown_page))).
Proof.
  apply (dismissed_reads_false_once_recomputed browser_tab
           (page_run browser_tab
              [Turn (Service (Window (beforeinstallprompt 0))); ReadShowBanner]
              (mkPage (mkApp (boot browser_tab) ∅) None))
           [Turn (Service CallShowInstallPrompt);
            Turn (Service (UserChoice 0 "dismissed"))]
           [ReadShowBanner; Turn (Service (Window (beforeinstallprompt 1)));
            ReadShowBanner; Turn (External (SetItem "theme" "dark"));
            ReadShowBanner]);
    reflexivity.
Defined.

End ShowBannerSignalRuns.
